(** * TriBond answer checking: a shallow embedding of [AnswerService]

    The program is the Angular service of the answer-checking document:
    [fetchSynonyms], [AnswerService.checkAnswer], [AnswerService.isFuzzyMatch],
    [AnswerService.levenshtein] and [AnswerService.isSynonymMatch].

    Strings are lists of 8-bit characters, read as the code units
    U+0000..U+00FF.  On that range a code unit is a code point, [trim] and
    [toLowerCase] stay inside the range, and both are written out below as
    ECMAScript defines them there.  Above the range [toLowerCase] may change
    the number of code units (U+0130 becomes two); what is stated below of
    [isFuzzyMatch] and [checkAnswer] measures strings in their normal form
    [x.trim().toLowerCase()] and does not rest on that number being kept. *)

From Stdlib Require Import List Bool Arith Lia ZArith Ascii.
From Stdlib Require String.
Import ListNotations String.StringSyntax.

(** ** Strings *)

Definition str := list ascii.

(** A literal, for the examples. *)
Definition lit (s : String.string) : str := String.list_ascii_of_string s.

Fixpoint str_eqb (s t : str) : bool :=
  match s, t with
  | [], [] => true
  | c :: s', k :: t' => Ascii.eqb c k && str_eqb s' t'
  | _, _ => false
  end.

(** ECMAScript WhiteSpace and LineTerminator below U+0100: TAB, LF, VT, FF,
    CR, SP and NBSP. *)
Definition isWhiteSpace (c : ascii) : bool :=
  let n := nat_of_ascii c in
  ((9 <=? n) && (n <=? 13)) || (n =? 32) || (n =? 160).

(** Lower-case mapping below U+0100: A-Z and the capitals U+00C0..U+00DE
    (the multiplication sign U+00D7 apart) move up by 32. *)
Definition isUpper (c : ascii) : bool :=
  let n := nat_of_ascii c in
  ((65 <=? n) && (n <=? 90)) ||
  ((192 <=? n) && (n <=? 222) && negb (n =? 215)).

Definition lowerChar (c : ascii) : ascii :=
  if isUpper c then ascii_of_nat (nat_of_ascii c + 32) else c.

(** [String.prototype.toLowerCase] *)
Definition toLowerCase (s : str) : str := map lowerChar s.

(** [String.prototype.trimStart], [trimEnd] and [trim] *)
Fixpoint trimStart (s : str) : str :=
  match s with
  | [] => []
  | c :: s' => if isWhiteSpace c then trimStart s' else s
  end.

Definition trimEnd (s : str) : str := rev (trimStart (rev s)).

Definition trim (s : str) : str := trimEnd (trimStart s).

(** [Array.prototype.includes] on an array of strings *)
Definition includes (xs : list str) (x : str) : bool :=
  existsb (fun y => str_eqb y x) xs.

(** ** Edit distance *)

Section Matrix.

Variables a b : str.

Definition charAt (s : str) (i : nat) : ascii := nth i s zero.

(** Modelled from the spec: the body of [AnswerService.levenshtein] is
    missing from the source (it holds a comment only).  This is the matrix
    of the design: [d[i][0] = i], [d[0][j] = j], [d[i][j] = d[i-1][j-1]]
    when the characters are equal and
    [1 + min(d[i-1][j], d[i][j-1], d[i-1][j-1])] otherwise. *)
Fixpoint d (i : nat) : nat -> nat :=
  match i with
  | 0 => fun j => j
  | S i' =>
      fix row (j : nat) : nat :=
        match j with
        | 0 => S i'
        | S j' =>
            if Ascii.eqb (charAt a i') (charAt b j')
            then d i' j'
            else 1 + Nat.min (d i' (S j')) (Nat.min (row j') (d i' j'))
        end
  end.

End Matrix.

(** Modelled from the spec: [AnswerService.levenshtein], the last cell of the
    matrix [d]. *)
Definition levenshtein (a b : str) : nat := d a b (length a) (length b).

(** [AnswerService.isFuzzyMatch] *)
Definition isFuzzyMatch (userInput correctAnswer : str) : bool :=
  let levenshteinDistance :=
    levenshtein (toLowerCase (trim userInput)) (toLowerCase (trim correctAnswer)) in
  levenshteinDistance <=? 2.

(** ** The collaborators and the effects of [checkAnswer] *)

(** A row of the [answers] table.  [correct_answer] is [TEXT NOT NULL];
    [answer_variations] is a nullable [TEXT[]]: [None] is [null]. *)
Record AnswerRow := {
  id : Z;
  question_id : Z;
  correct_answer : str;
  answer_variations : option (list str)
}.

(** What the store client resolves to: [{ data, error }], each possibly
    [null]. *)
Record PostgrestError := { message : str }.

Record QueryResult := {
  data : option (list AnswerRow);
  error : option PostgrestError
}.

(** A Datamuse entry; [fetchSynonyms] reads its [word]. *)
Record Entry := { word : str; score : Z }.

(** What can be thrown, or reject a promise, on the way. *)
Inductive Exn :=
| TypeError          (* a property read on [null] *)
| FetchError         (* [fetch] rejects: network failure, timeout *)
| SyntaxError.       (* [response.json()] rejects: malformed body *)

(** The outcome of the HTTP exchange of [fetchSynonyms]. *)
Inductive HttpResult :=
| Rejected (e : Exn)
| Body (entries : list Entry).

(** The two external collaborators. *)
Record World := {
  answers : Z -> QueryResult;      (* from('answers').select('*').eq('question_id', _) *)
  datamuse : str -> HttpResult     (* fetch(`https://api.datamuse.com/words?ml=${word}`) *)
}.

(** The calls a run makes, in order. *)
Inductive Call :=
| Query (questionId : Z)
| FuzzyMatch (userInput against : str)
| SynonymMatch (userInput correctAnswer : str)
| Fetch (query : str).

(** A run: the calls made and how it ended, thrown or returned. *)
Inductive Outcome (A : Type) :=
| Threw (e : Exn)
| Returned (a : A).

Arguments Threw {A} e.
Arguments Returned {A} a.

Definition M (A : Type) : Type := list Call * Outcome A.

Definition ret {A} (a : A) : M A := ([], Returned a).

Definition throw {A} (e : Exn) : M A := ([], Threw e).

Definition call (c : Call) : M unit := ([c], Returned tt).

Definition bind {A B} (m : M A) (k : A -> M B) : M B :=
  match m with
  | (t, Threw e) => (t, Threw e)
  | (t, Returned a) => let (t', r) := k a in (t ++ t', r)
  end.

Declare Scope run_scope.
Delimit Scope run_scope with run.
Notation "x <- m ;; k" := (bind m (fun x => k))
  (at level 61, m at next level, right associativity) : run_scope.
Notation "m ;; k" := (bind m (fun _ => k))
  (at level 61, right associativity) : run_scope.
Local Open Scope run_scope.

Definition calls {A} (m : M A) : list Call := fst m.
Definition outcome {A} (m : M A) : Outcome A := snd m.

(** [a || b]: [b] is evaluated only when [a] is false. *)
Definition orElse (a b : M bool) : M bool :=
  x <- a ;; if x then ret true else b.

(** [Array.prototype.some] with a callback that makes calls: it stops at the
    first element the callback accepts. *)
Fixpoint some {A} (f : A -> M bool) (xs : list A) : M bool :=
  match xs with
  | [] => ret false
  | x :: xs' => b <- f x ;; if b then ret true else some f xs'
  end.

(** [answerVariations.includes(x)] and [answerVariations.some(f)] on a column
    value: reading the method on [null] throws. *)
Definition variationsInclude (answerVariations : option (list str)) (x : str)
    : M bool :=
  match answerVariations with
  | None => throw TypeError
  | Some vs => ret (includes vs x)
  end.

Definition variationsSome (f : str -> M bool)
    (answerVariations : option (list str)) : M bool :=
  match answerVariations with
  | None => throw TypeError
  | Some vs => some f vs
  end.

(** [this.isFuzzyMatch(...)], as a call of the run *)
Definition fuzzy (userInput against : str) : M bool :=
  call (FuzzyMatch userInput against) ;;
  ret (isFuzzyMatch userInput against).

(** The condition of step 2 on an array of variations: the exact comparison
    with the canonical answer and the look-up among the variations. *)
Definition exactOrVariant (userInput correctAnswer : str)
    (answerVariations : list str) : bool :=
  str_eqb (toLowerCase (trim correctAnswer)) (toLowerCase (trim userInput))
  || includes answerVariations (toLowerCase (trim userInput)).

Section Service.

Variable w : World.

(** [fetchSynonyms] *)
Definition fetchSynonyms (word0 : str) : M (list str) :=
  call (Fetch word0) ;;
  match datamuse w word0 with
  | Rejected e => throw e
  | Body entries => ret (map word entries)
  end.

(** [AnswerService.isSynonymMatch] *)
Definition isSynonymMatch (userInput correctAnswer : str) : M bool :=
  call (SynonymMatch userInput correctAnswer) ;;
  synonyms <- fetchSynonyms correctAnswer ;;
  ret (includes synonyms (toLowerCase (trim userInput))).

(** [AnswerService.checkAnswer] *)
Definition checkAnswer (questionId : Z) (userInput : str) : M bool :=
  call (Query questionId) ;;
  let r := answers w questionId in
  match error r, data r with
  | Some _, _ => ret false
  | None, None => throw TypeError
  | None, Some [] => ret false
  | None, Some (row :: _) =>
      let correctAnswer := correct_answer row in
      let answerVariations := answer_variations row in
      exact <- orElse
                 (ret (str_eqb (toLowerCase (trim correctAnswer))
                               (toLowerCase (trim userInput))))
                 (variationsInclude answerVariations
                                    (toLowerCase (trim userInput))) ;;
      if exact then ret true
      else
        close <- orElse
                   (fuzzy userInput correctAnswer)
                   (variationsSome (fun variation => fuzzy userInput variation)
                                   answerVariations) ;;
        if close then ret true
        else
          synonymMatch <- isSynonymMatch userInput correctAnswer ;;
          if synonymMatch then ret true else ret false
  end.

End Service.

(** ** Reading strings and runs *)

(** The last character of a string, if any. *)
Definition lastChar (s : str) : option ascii := hd_error (rev s).

Definition headChar (s : str) : option ascii := hd_error s.

Definition notSpace (o : option ascii) : Prop :=
  match o with None => True | Some c => isWhiteSpace c = false end.


(** The variations [some] visits: up to and including the first accepted. *)
Fixpoint visited (p : str -> bool) (vs : list str) : list str :=
  match vs with
  | [] => []
  | v :: vs' => v :: (if p v then [] else visited p vs')
  end.

(** Every call [checkAnswer] can make on a row with canonical answer [c] and
    the array [vs] of variations, in the order of the code. *)
Definition schedule (questionId : Z) (userInput c : str) (vs : list str)
    : list Call :=
  [Query questionId; FuzzyMatch userInput c]
  ++ map (FuzzyMatch userInput) vs
  ++ [SynonymMatch userInput c; Fetch c].

(** The calls of the synonym tier. *)
Definition isLookup (c : Call) : bool :=
  match c with
  | SynonymMatch _ _ | Fetch _ => true
  | _ => false
  end.

(** The store queries and the HTTP requests among the calls. *)
Definition isQuery (c : Call) : bool :=
  match c with
  | Query _ => true
  | _ => false
  end.

Definition isFetch (c : Call) : bool :=
  match c with
  | Fetch _ => true
  | _ => false
  end.

(** A store answer without error. *)
Definition rows (rs : list AnswerRow) : QueryResult :=
  {| data := Some rs; error := None |}.

(** The synonym tier, once reached. *)
Definition lookup (w : World) (u c : str) : Outcome bool :=
  match datamuse w c with
  | Rejected e => Threw e
  | Body entries => Returned (includes (map word entries) (toLowerCase (trim u)))
  end.

(** Whether a tier before the synonym tier accepts, on a row with canonical
    answer [c] and the array [vs] of variations. *)
Definition acceptedEarly (u c : str) (vs : list str) : bool :=
  exactOrVariant u c vs
  || isFuzzyMatch u c
  || existsb (isFuzzyMatch u) vs.

(** The tiers the design's [MatchResult] would name; [checkAnswer] returns a
    [boolean] and names none of them. *)
Inductive Tier := Exact | Variant | Fuzzy | Synonym | NoTier.

(** ** Sample worlds *)

Local Open Scope string_scope.

Definition mkRow (n : Z) (c : String.string) (vs : option (list str)) : AnswerRow :=
  {| id := n; question_id := 1; correct_answer := lit c; answer_variations := vs |}.

(** The sample row of the document, with two of its variations. *)
Definition roundRow : AnswerRow :=
  mkRow 1 "round" (Some [lit "circular"; lit "spherical"]).

Definition squareRow : AnswerRow := mkRow 2 "square" (Some [lit "boxy"]).

Definition oxRow : AnswerRow := mkRow 3 "ox" (Some []).

Definition capitalRow : AnswerRow := mkRow 4 "round" (Some [lit " Circular "]).




Definition nullRow : AnswerRow := mkRow 8 "round" None.

Definition entry (s : String.string) : Entry := {| word := lit s; score := 0 |}.

(** A store that holds [rs] for question 1 and nothing else, and a synonym
    service that answers every word with [found]. *)
Definition world (rs : list AnswerRow) (found : HttpResult) : World :=
  {| answers := fun q => if (q =? 1)%Z then rows rs else rows [];
     datamuse := fun _ => found |}.

Definition sampleWorld (found : HttpResult) : World := world [roundRow] found.

(** A store with two rows for question 1. *)
Definition twoRows : World := world [roundRow; squareRow] (Body []).

(** A store that fails every query. *)
Definition brokenStore : World :=
  {| answers := fun _ => {| data := None;
                            error := Some {| message := lit "connection refused" |} |};
     datamuse := fun _ => Body [] |}.

(** * Properties *)

(** ** Strings *)

Lemma str_eqb_eq (s t : str) : str_eqb s t = true <-> s = t.
Proof.
  revert t; induction s as [|c s IH]; intros [|k t]; simpl;
    try (split; (reflexivity || discriminate)).
  rewrite andb_true_iff, Ascii.eqb_eq, IH.
  split; [intros [-> ->]; reflexivity | intros E; injection E; auto].
Qed.

Lemma str_eqb_refl (s : str) : str_eqb s s = true.
Proof. apply str_eqb_eq; reflexivity. Qed.


Lemma includes_In (xs : list str) (x : str) : includes xs x = true <-> In x xs.
Proof.
  unfold includes. rewrite existsb_exists. split.
  - intros (y & Hy & E). apply str_eqb_eq in E. subst. exact Hy.
  - intros H. exists x. split; [exact H | apply str_eqb_refl].
Qed.

Ltac each_char c :=
  destruct c as [[|] [|] [|] [|] [|] [|] [|] [|]]; vm_compute; try reflexivity.

Lemma lowerChar_not_upper (c : ascii) : isUpper (lowerChar c) = false.
Proof. each_char c. Qed.

Lemma lowerChar_idem (c : ascii) : lowerChar (lowerChar c) = lowerChar c.
Proof. each_char c. Qed.

Lemma lowerChar_space (c : ascii) : isWhiteSpace (lowerChar c) = isWhiteSpace c.
Proof. each_char c. Qed.

Lemma toLowerCase_length (s : str) : length (toLowerCase s) = length s.
Proof. apply length_map. Qed.

Lemma toLowerCase_idem (s : str) : toLowerCase (toLowerCase s) = toLowerCase s.
Proof.
  unfold toLowerCase. rewrite map_map. apply map_ext. apply lowerChar_idem.
Qed.

Lemma toLowerCase_rev (s : str) : toLowerCase (rev s) = rev (toLowerCase s).
Proof. apply map_rev. Qed.

(** What [trimStart] removes and what it leaves. *)
Lemma trimStart_split (s : str) :
  exists l, s = l ++ trimStart s /\ forallb isWhiteSpace l = true.
Proof.
  induction s as [|c s (l & E & Hl)]; simpl.
  - exists []. split; reflexivity.
  - destruct (isWhiteSpace c) eqn:Hc.
    + exists (c :: l). simpl. rewrite Hc, Hl. split; [f_equal; exact E | reflexivity].
    + exists []. split; reflexivity.
Qed.

Lemma trimStart_head (s : str) :
  match trimStart s with [] => True | c :: _ => isWhiteSpace c = false end.
Proof.
  induction s as [|c s IH]; simpl; [exact I|].
  destruct (isWhiteSpace c) eqn:Hc; [exact IH | exact Hc].
Qed.

Lemma trimStart_fixed (s : str) :
  match s with [] => True | c :: _ => isWhiteSpace c = false end ->
  trimStart s = s.
Proof. destruct s as [|c s]; simpl; [reflexivity | intros ->; reflexivity]. Qed.

Lemma trimStart_toLowerCase (s : str) :
  trimStart (toLowerCase s) = toLowerCase (trimStart s).
Proof.
  induction s as [|c s IH]; simpl; [reflexivity|].
  rewrite lowerChar_space. destruct (isWhiteSpace c); [exact IH | reflexivity].
Qed.

Lemma trimEnd_toLowerCase (s : str) :
  trimEnd (toLowerCase s) = toLowerCase (trimEnd s).
Proof.
  unfold trimEnd.
  rewrite <- toLowerCase_rev, trimStart_toLowerCase, toLowerCase_rev. reflexivity.
Qed.

Lemma trim_toLowerCase (s : str) : trim (toLowerCase s) = toLowerCase (trim s).
Proof. unfold trim. rewrite trimStart_toLowerCase, trimEnd_toLowerCase. reflexivity. Qed.

Lemma trimStart_headChar (s : str) : notSpace (headChar (trimStart s)).
Proof. generalize (trimStart_head s). destruct (trimStart s); simpl; auto. Qed.

Lemma trimEnd_lastChar (s : str) : notSpace (lastChar (trimEnd s)).
Proof.
  unfold lastChar, trimEnd. rewrite rev_involutive. apply trimStart_headChar.
Qed.

Lemma trimEnd_split (s : str) :
  exists r, s = trimEnd s ++ r /\ forallb isWhiteSpace r = true.
Proof.
  unfold trimEnd. destruct (trimStart_split (rev s)) as (l & E & Hl).
  exists (rev l). split.
  - rewrite <- rev_app_distr, <- E, rev_involutive. reflexivity.
  - rewrite forallb_forall in *. intros c Hc. apply Hl. apply in_rev. exact Hc.
Qed.

(** Dropping white space at the end keeps the first character. *)
Lemma trimEnd_headChar (s : str) :
  notSpace (headChar s) -> notSpace (headChar (trimEnd s)).
Proof.
  destruct (trimEnd_split s) as (r & E & Hr). intros H.
  destruct (trimEnd s) as [|c t] eqn:Et; simpl; [exact I|].
  rewrite E in H. exact H.
Qed.

Lemma trimEnd_fixed (s : str) : notSpace (lastChar s) -> trimEnd s = s.
Proof.
  unfold lastChar, trimEnd. intros H.
  rewrite trimStart_fixed, rev_involutive; [reflexivity|].
  destruct (rev s); simpl in *; auto.
Qed.

Lemma trim_headChar (s : str) : notSpace (headChar (trim s)).
Proof. apply trimEnd_headChar, trimStart_headChar. Qed.

Lemma trim_lastChar (s : str) : notSpace (lastChar (trim s)).
Proof. apply trimEnd_lastChar. Qed.

Lemma trim_fixed (s : str) :
  notSpace (headChar s) -> notSpace (lastChar s) -> trim s = s.
Proof.
  intros Hh Hl. unfold trim. rewrite trimStart_fixed.
  - apply trimEnd_fixed, Hl.
  - destruct s; simpl in *; auto.
Qed.

Lemma trim_idem (s : str) : trim (trim s) = trim s.
Proof. apply trim_fixed; [apply trim_headChar | apply trim_lastChar]. Qed.

Lemma trim_split (s : str) :
  exists l r, s = l ++ trim s ++ r
              /\ forallb isWhiteSpace l = true /\ forallb isWhiteSpace r = true.
Proof.
  destruct (trimStart_split s) as (l & El & Hl).
  destruct (trimEnd_split (trimStart s)) as (r & Er & Hr).
  exists l, r. unfold trim. rewrite <- Er. auto.
Qed.

(** The normal form [x.trim().toLowerCase()] is a fixed point of itself. *)
Lemma normal_idem (s : str) :
  toLowerCase (trim (toLowerCase (trim s))) = toLowerCase (trim s).
Proof. rewrite trim_toLowerCase, trim_idem, toLowerCase_idem. reflexivity. Qed.

(** ** Edit distance *)

Example levenshtein_round_round : levenshtein (lit "round") (lit "round") = 0.
Proof. reflexivity. Qed.

Example levenshtein_round_rund : levenshtein (lit "round") (lit "rund") = 1.
Proof. reflexivity. Qed.

Example levenshtein_round_circular : levenshtein (lit "round") (lit "circular") = 6.
Proof. vm_compute. reflexivity. Qed.

Lemma d_zero_l (a b : str) (j : nat) : d a b 0 j = j.
Proof. reflexivity. Qed.

Lemma d_zero_r (a b : str) (i : nat) : d a b i 0 = i.
Proof. destruct i; reflexivity. Qed.

Lemma d_step (a b : str) (i j : nat) :
  d a b (S i) (S j) =
  if Ascii.eqb (charAt a i) (charAt b j) then d a b i j
  else 1 + Nat.min (d a b i (S j)) (Nat.min (d a b (S i) j) (d a b i j)).
Proof. reflexivity. Qed.

(** The matrix of [(b, a)] is the transpose of the matrix of [(a, b)]. *)
Lemma d_transpose (a b : str) (i j : nat) : d a b i j = d b a j i.
Proof.
  revert j. induction i as [|i IHi]; intros j.
  - rewrite d_zero_l, d_zero_r. reflexivity.
  - induction j as [|j IHj].
    + rewrite d_zero_l, d_zero_r. reflexivity.
    + rewrite !d_step, Ascii.eqb_sym.
      destruct (Ascii.eqb (charAt b j) (charAt a i)).
      * apply IHi.
      * rewrite IHj, (IHi j), (IHi (S j)). lia.
Qed.

(** A cell is zero exactly on the diagonal below which the strings agree. *)
Lemma d_eq_0 (a b : str) (i j : nat) :
  d a b i j = 0 <-> i = j /\ forall k, k < i -> charAt a k = charAt b k.
Proof.
  revert j. induction i as [|i IHi]; intros j.
  - rewrite d_zero_l. split.
    + intros ->. split; [reflexivity | intros k Hk; lia].
    + intros [E _]. symmetry. exact E.
  - destruct j as [|j].
    + rewrite d_zero_r. split; [discriminate | intros [E _]; discriminate].
    + rewrite d_step. destruct (Ascii.eqb (charAt a i) (charAt b j)) eqn:E.
      * apply Ascii.eqb_eq in E. rewrite IHi. split.
        -- intros [-> H]. split; [reflexivity|].
           intros k Hk. destruct (Nat.eq_dec k j) as [->|Hne]; [exact E|].
           apply H. lia.
        -- intros [Eij H]. injection Eij as ->. split; [reflexivity|].
           intros k Hk. apply H. lia.
      * apply Ascii.eqb_neq in E. split; [discriminate|].
        intros [Eij H]. injection Eij as ->. exfalso. apply E, H. lia.
Qed.

Lemma levenshtein_sym (a b : str) : levenshtein a b = levenshtein b a.
Proof. apply d_transpose. Qed.

Lemma levenshtein_eq_0 (a b : str) : levenshtein a b = 0 <-> a = b.
Proof.
  unfold levenshtein. rewrite d_eq_0. split.
  - intros [E H]. apply nth_ext with (d := zero) (d' := zero); assumption.
  - intros ->. split; [reflexivity | intros; reflexivity].
Qed.

Lemma levenshtein_nil_r (a : str) : levenshtein a [] = length a.
Proof. apply d_zero_r. Qed.

Lemma levenshtein_nil_l (b : str) : levenshtein [] b = length b.
Proof. apply d_zero_l. Qed.

(** C6: for all strings [a] and [b], [levenshtein a b = levenshtein b a];
    [levenshtein a b] is [0] if and only if [a = b]; and the distance between
    a string and the empty string, on either side, is the length of the
    string. *)
Theorem levenshtein_metric_laws (a b : str) :
  levenshtein a b = levenshtein b a
  /\ (levenshtein a b = 0 <-> a = b)
  /\ levenshtein a [] = length a
  /\ levenshtein [] a = length a.
Proof.
  split; [apply levenshtein_sym|].
  split; [apply levenshtein_eq_0|].
  split; [apply levenshtein_nil_r | apply levenshtein_nil_l].
Qed.


(** ** Runs of [checkAnswer] *)

Lemma some_fuzzy (u : str) (vs : list str) :
  some (fun variation => fuzzy u variation) vs =
  (map (FuzzyMatch u) (visited (isFuzzyMatch u) vs),
   Returned (existsb (isFuzzyMatch u) vs)).
Proof.
  induction vs as [|v vs IH]; [reflexivity|].
  cbn [some visited existsb map]. rewrite IH. unfold fuzzy. cbn.
  destruct (isFuzzyMatch u v); reflexivity.
Qed.

Lemma visited_all (p : str -> bool) (vs : list str) :
  existsb p vs = false -> visited p vs = vs.
Proof.
  induction vs as [|v vs IH]; simpl; [reflexivity|].
  intros H. apply orb_false_iff in H as [-> H]. rewrite (IH H). reflexivity.
Qed.

Lemma visited_first (p : str -> bool) (pre post : list str) (v : str) :
  forallb (fun x => negb (p x)) pre = true -> p v = true ->
  visited p (pre ++ v :: post) = pre ++ [v].
Proof.
  induction pre as [|x pre IH]; simpl; intros Hpre Hv.
  - rewrite Hv. reflexivity.
  - apply andb_true_iff in Hpre as [Hx Hpre]. apply negb_true_iff in Hx.
    rewrite Hx, (IH Hpre Hv). reflexivity.
Qed.

Lemma visited_prefix (p : str -> bool) (vs : list str) :
  exists k, k <= length vs /\ visited p vs = firstn k vs.
Proof.
  induction vs as [|v vs (k & Hk & E)]; simpl.
  - exists 0. split; [lia | reflexivity].
  - destruct (p v).
    + exists 1. split; [lia | reflexivity].
    + exists (S k). simpl. rewrite E. split; [lia | reflexivity].
Qed.

Lemma isSynonymMatch_run (w : World) (u c : str) :
  isSynonymMatch w u c = ([SynonymMatch u c; Fetch c], lookup w u c).
Proof.
  unfold isSynonymMatch, fetchSynonyms, lookup. cbn.
  destruct (datamuse w c); reflexivity.
Qed.

(** The run of [checkAnswer] on a question that has rows, tier by tier. *)
Lemma checkAnswer_run (w : World) (q : Z) (u : str) (row : AnswerRow)
    (rest : list AnswerRow) :
  answers w q = rows (row :: rest) ->
  checkAnswer w q u =
  let c := correct_answer row in
  if str_eqb (toLowerCase (trim c)) (toLowerCase (trim u))
  then ([Query q], Returned true)
  else
    match answer_variations row with
    | None => ([Query q], Threw TypeError)
    | Some vs =>
        if includes vs (toLowerCase (trim u)) then ([Query q], Returned true)
        else if isFuzzyMatch u c then ([Query q; FuzzyMatch u c], Returned true)
        else if existsb (isFuzzyMatch u) vs
        then (Query q :: FuzzyMatch u c
                :: map (FuzzyMatch u) (visited (isFuzzyMatch u) vs), Returned true)
        else (schedule q u c vs, lookup w u c)
    end.
Proof.
  intros E. unfold checkAnswer. rewrite E. cbn [error data rows].
  cbv zeta. rewrite isSynonymMatch_run.
  destruct (str_eqb _ _); [reflexivity|].
  destruct (answer_variations row) as [vs|]; [|reflexivity].
  cbn [variationsInclude variationsSome]. rewrite some_fuzzy.
  unfold orElse, fuzzy. cbn.
  destruct (includes vs _); [reflexivity|].
  cbn. destruct (isFuzzyMatch u (correct_answer row)); [reflexivity|].
  cbn. destruct (existsb _ _) eqn:Ex; cbn.
  - rewrite app_nil_r. reflexivity.
  - rewrite (visited_all _ _ Ex). unfold schedule. cbn.
    destruct (lookup w u (correct_answer row)) as [e|[|]]; cbn;
      rewrite ?app_nil_r; reflexivity.
Qed.

(** The same on a row whose variations are an array. *)
Lemma checkAnswer_run_array (w : World) (q : Z) (u : str) (row : AnswerRow)
    (rest : list AnswerRow) (vs : list str) :
  answers w q = rows (row :: rest) ->
  answer_variations row = Some vs ->
  checkAnswer w q u =
  let c := correct_answer row in
  if exactOrVariant u c vs then ([Query q], Returned true)
  else if isFuzzyMatch u c then ([Query q; FuzzyMatch u c], Returned true)
  else if existsb (isFuzzyMatch u) vs
  then (Query q :: FuzzyMatch u c
          :: map (FuzzyMatch u) (visited (isFuzzyMatch u) vs), Returned true)
  else (schedule q u c vs, lookup w u c).
Proof.
  intros E V. rewrite (checkAnswer_run w q u row rest E), V. cbv zeta.
  unfold exactOrVariant. destruct (str_eqb _ _); reflexivity.
Qed.

(** An exact match with the canonical answer ends the run, whatever the
    variations are. *)
Lemma canonical_run (w : World) (q : Z) (u : str) (row : AnswerRow)
    (rest : list AnswerRow) :
  answers w q = rows (row :: rest) ->
  toLowerCase (trim (correct_answer row)) = toLowerCase (trim u) ->
  checkAnswer w q u = ([Query q], Returned true).
Proof.
  intros E C. rewrite (checkAnswer_run w q u row rest E). cbv zeta.
  rewrite (proj2 (str_eqb_eq _ _) C). reflexivity.
Qed.

(** Without it, a row whose variations are [null] makes the run throw. *)
Lemma null_run (w : World) (q : Z) (u : str) (row : AnswerRow)
    (rest : list AnswerRow) :
  answers w q = rows (row :: rest) ->
  answer_variations row = None ->
  toLowerCase (trim (correct_answer row)) <> toLowerCase (trim u) ->
  checkAnswer w q u = ([Query q], Threw TypeError).
Proof.
  intros E V C. rewrite (checkAnswer_run w q u row rest E), V. cbv zeta.
  destruct (str_eqb _ _) eqn:X; [|reflexivity].
  apply str_eqb_eq in X. contradiction.
Qed.

(** ** The tiers of [checkAnswer] *)

Section Tiers.

Variables (w : World) (q : Z) (u : str) (row : AnswerRow) (rest : list AnswerRow).
Variable vs : list str.

Hypothesis stored : answers w q = rows (row :: rest).
Hypothesis listed : answer_variations row = Some vs.

Lemma exact_run :
  exactOrVariant u (correct_answer row) vs = true ->
  checkAnswer w q u = ([Query q], Returned true).
Proof.
  intros H. rewrite (checkAnswer_run_array w q u row rest vs stored listed).
  cbv zeta. rewrite H. reflexivity.
Qed.

Lemma fuzzy_canonical_run :
  exactOrVariant u (correct_answer row) vs = false ->
  isFuzzyMatch u (correct_answer row) = true ->
  checkAnswer w q u = ([Query q; FuzzyMatch u (correct_answer row)], Returned true).
Proof.
  intros H1 H2. rewrite (checkAnswer_run_array w q u row rest vs stored listed).
  cbv zeta. rewrite H1, H2. reflexivity.
Qed.

Lemma fuzzy_variation_run :
  exactOrVariant u (correct_answer row) vs = false ->
  isFuzzyMatch u (correct_answer row) = false ->
  existsb (isFuzzyMatch u) vs = true ->
  checkAnswer w q u =
  (Query q :: FuzzyMatch u (correct_answer row)
     :: map (FuzzyMatch u) (visited (isFuzzyMatch u) vs),
   Returned true).
Proof.
  intros H1 H2 H3. rewrite (checkAnswer_run_array w q u row rest vs stored listed).
  cbv zeta. rewrite H1, H2, H3. reflexivity.
Qed.

Lemma synonym_run :
  exactOrVariant u (correct_answer row) vs = false ->
  isFuzzyMatch u (correct_answer row) = false ->
  existsb (isFuzzyMatch u) vs = false ->
  checkAnswer w q u =
  (schedule q u (correct_answer row) vs, lookup w u (correct_answer row)).
Proof.
  intros H1 H2 H3. rewrite (checkAnswer_run_array w q u row rest vs stored listed).
  cbv zeta. rewrite H1, H2, H3. reflexivity.
Qed.

Lemma early_run :
  acceptedEarly u (correct_answer row) vs = true ->
  existsb isLookup (calls (checkAnswer w q u)) = false
  /\ outcome (checkAnswer w q u) = Returned true.
Proof.
  unfold acceptedEarly. intros H.
  destruct (exactOrVariant _ _ _) eqn:H1; [rewrite (exact_run H1); auto|].
  destruct (isFuzzyMatch u (correct_answer row)) eqn:H2;
    [rewrite (fuzzy_canonical_run H1 H2); auto|].
  simpl in H. rewrite (fuzzy_variation_run H1 H2 H). split; [|reflexivity].
  cbn. induction (visited _ _); [reflexivity | exact IHl].
Qed.

Lemma calls_scheduled :
  exists k,
    calls (checkAnswer w q u) = firstn k (schedule q u (correct_answer row) vs).
Proof.
  destruct (exactOrVariant u (correct_answer row) vs) eqn:H1.
  { exists 1. rewrite (exact_run H1). reflexivity. }
  destruct (isFuzzyMatch u (correct_answer row)) eqn:H2.
  { exists 2. rewrite (fuzzy_canonical_run H1 H2). reflexivity. }
  destruct (existsb (isFuzzyMatch u) vs) eqn:H3.
  - rewrite (fuzzy_variation_run H1 H2 H3).
    destruct (visited_prefix (isFuzzyMatch u) vs) as (k & Hk & E).
    exists (S (S k)). unfold schedule, calls. cbn. do 2 f_equal.
    rewrite E, <- firstn_map, firstn_app, length_map.
    replace (k - length vs) with 0 by lia.
    cbn. rewrite app_nil_r. reflexivity.
  - exists (length (schedule q u (correct_answer row) vs)).
    rewrite (synonym_run H1 H2 H3). rewrite firstn_all. reflexivity.
Qed.

End Tiers.

(** ** Claims *)

(** C1 (tier precedence), as the code has it: on a question whose first row
    has an array of variations, the calls of [checkAnswer] are an initial
    part of the fixed schedule "fuzzy match against the canonical answer,
    fuzzy match against each variation in turn, synonym match with its
    lookup", the exact/variation test coming before all of them.  The run
    stops at the first tier that accepts and returns the boolean [true],
    which names neither the tier nor a distance: after the exact/variation
    test alone, after the fuzzy match against the canonical answer, or after
    the first variation within the threshold; the synonym tier is run only
    when all of these reject, and when one of them accepts no call of the
    synonym tier is made. *)
Theorem checkAnswer_tier_precedence (w : World) (q : Z) (u : str)
    (row : AnswerRow) (rest : list AnswerRow) (vs : list str) :
  answers w q = rows (row :: rest) ->
  answer_variations row = Some vs ->
  (exists k,
      calls (checkAnswer w q u) = firstn k (schedule q u (correct_answer row) vs))
  /\ (exactOrVariant u (correct_answer row) vs = true ->
      checkAnswer w q u = ([Query q], Returned true))
  /\ (exactOrVariant u (correct_answer row) vs = false ->
      isFuzzyMatch u (correct_answer row) = true ->
      checkAnswer w q u =
      ([Query q; FuzzyMatch u (correct_answer row)], Returned true))
  /\ (forall pre v post,
      exactOrVariant u (correct_answer row) vs = false ->
      isFuzzyMatch u (correct_answer row) = false ->
      vs = pre ++ v :: post ->
      forallb (fun x => negb (isFuzzyMatch u x)) pre = true ->
      isFuzzyMatch u v = true ->
      checkAnswer w q u =
      (Query q :: FuzzyMatch u (correct_answer row)
         :: map (FuzzyMatch u) (pre ++ [v]), Returned true))
  /\ (exactOrVariant u (correct_answer row) vs = false ->
      isFuzzyMatch u (correct_answer row) = false ->
      existsb (isFuzzyMatch u) vs = false ->
      checkAnswer w q u =
      (schedule q u (correct_answer row) vs, lookup w u (correct_answer row)))
  /\ (acceptedEarly u (correct_answer row) vs = true ->
      existsb isLookup (calls (checkAnswer w q u)) = false
      /\ outcome (checkAnswer w q u) = Returned true).
Proof.
  intros stored listed.
  split; [exact (calls_scheduled w q u row rest vs stored listed)|].
  split; [exact (exact_run w q u row rest vs stored listed)|].
  split; [exact (fuzzy_canonical_run w q u row rest vs stored listed)|].
  split; [|split; [exact (synonym_run w q u row rest vs stored listed)
                  | exact (early_run w q u row rest vs stored listed)]].
  intros pre v post H1 H2 Evs Hpre Hv.
  rewrite (fuzzy_variation_run w q u row rest vs stored listed H1 H2).
  - rewrite Evs, (visited_first _ pre post v Hpre Hv). reflexivity.
  - rewrite Evs, existsb_app. simpl. rewrite Hv, orb_true_r. reflexivity.
Qed.

(** The input "rund" is within the threshold of "round" and is also what the
    synonym service returns: the fuzzy tier wins and nothing is fetched. *)
Lemma checkAnswer_tier_precedence_witness :
  checkAnswer (sampleWorld (Body [entry "rund"])) 1 (lit "rund")
  = ([Query 1; FuzzyMatch (lit "rund") (lit "round")], Returned true).
Proof.
  destruct (checkAnswer_tier_precedence (sampleWorld (Body [entry "rund"])) 1
              (lit "rund") roundRow [] [lit "circular"; lit "spherical"]
              eq_refl eq_refl) as (_ & _ & H & _).
  apply H; reflexivity.
Defined.

(** C1 as stated fails: the result names no tier.  "round" is the canonical
    answer and "circular" a stored variation; both runs are the store query
    followed by the same [true], so nothing read off the result can answer
    [Exact] for the one and [Variant] for the other. *)
Lemma result_names_no_tier :
  checkAnswer (sampleWorld (Body [])) 1 (lit "round") = ([Query 1], Returned true)
  /\ checkAnswer (sampleWorld (Body [])) 1 (lit "circular")
     = ([Query 1], Returned true)
  /\ ~ exists report : M bool -> Tier,
         report (checkAnswer (sampleWorld (Body [])) 1 (lit "round")) = Exact
         /\ report (checkAnswer (sampleWorld (Body [])) 1 (lit "circular"))
            = Variant.
Proof.
  assert (E : checkAnswer (sampleWorld (Body [])) 1 (lit "round")
              = checkAnswer (sampleWorld (Body [])) 1 (lit "circular"))
    by reflexivity.
  split; [reflexivity|]. split; [reflexivity|].
  intros (report & H1 & H2). rewrite E in H1. congruence.
Qed.

(** C2, as the code has it: when the store resolves no row for the question
    (an empty result, no error), [checkAnswer] makes the query and returns
    [false], the value of an ordinary rejection; nothing is thrown. *)
Theorem checkAnswer_no_answer (w : World) (q : Z) (u : str) :
  answers w q = rows [] ->
  checkAnswer w q u = ([Query q], Returned false).
Proof. intros E. unfold checkAnswer. rewrite E. reflexivity. Qed.

Lemma checkAnswer_no_answer_witness :
  checkAnswer (sampleWorld (Body [])) 7 (lit "round") = ([Query 7], Returned false).
Proof. apply checkAnswer_no_answer. reflexivity. Defined.

(** C2 as stated fails: question 7 has no answer in the sample store, yet the
    run throws nothing and ends like the wrong guess "zzzzzz" on question 1. *)
Lemma unknown_question_is_plain_rejection :
  answers (sampleWorld (Body [])) 7 = rows []
  /\ (forall e, outcome (checkAnswer (sampleWorld (Body [])) 7 (lit "round")) <> Threw e)
  /\ outcome (checkAnswer (sampleWorld (Body [])) 7 (lit "round"))
     = outcome (checkAnswer (sampleWorld (Body [])) 1 (lit "zzzzzz")).
Proof.
  split; [reflexivity|]. split; [intros e; discriminate | reflexivity].
Qed.

(** C10: when the store query reports an error, whatever [data] holds,
    [checkAnswer] returns [false] and throws nothing. *)
Theorem checkAnswer_store_error (w : World) (q : Z) (u : str) (e : PostgrestError) :
  error (answers w q) = Some e ->
  checkAnswer w q u = ([Query q], Returned false).
Proof. intros E. unfold checkAnswer. rewrite E. reflexivity. Qed.

Lemma checkAnswer_store_error_witness :
  checkAnswer brokenStore 1 (lit "round") = ([Query 1], Returned false).
Proof.
  apply (checkAnswer_store_error brokenStore 1 (lit "round")
           {| message := lit "connection refused" |}).
  reflexivity.
Defined.

(** C9: when the store returns several rows, the run of [checkAnswer] is the
    run on the first row alone: two stores that agree on the first row of the
    question, in front of the same synonym service, give the same calls and
    the same outcome, so a later row cannot cause acceptance. *)
Theorem checkAnswer_first_row_only (w w' : World) (q : Z) (u : str)
    (row : AnswerRow) (rest : list AnswerRow) :
  answers w q = rows (row :: rest) ->
  answers w' q = rows [row] ->
  datamuse w' = datamuse w ->
  checkAnswer w q u = checkAnswer w' q u.
Proof.
  intros E E' D.
  rewrite (checkAnswer_run w q u row rest E), (checkAnswer_run w' q u row [] E').
  unfold lookup. rewrite D. reflexivity.
Qed.

(** "square" is the canonical answer of the second row only: it is
    rejected, as it is by the store that holds the first row alone. *)
Lemma checkAnswer_first_row_only_witness :
  checkAnswer twoRows 1 (lit "square")
  = checkAnswer (sampleWorld (Body [])) 1 (lit "square")
  /\ outcome (checkAnswer twoRows 1 (lit "square")) = Returned false.
Proof.
  split.
  - apply (checkAnswer_first_row_only twoRows (sampleWorld (Body [])) 1
             (lit "square") roundRow [squareRow]); reflexivity.
  - vm_compute. reflexivity.
Defined.




(** ** Blank input *)






(** ** The exact/variation test *)

(** What the test of step 2 decides: the canonical answer is compared in
    normal form, the variations as they are stored. *)
Lemma exactOrVariant_spec (u c : str) (vs : list str) :
  exactOrVariant u c vs = true <->
  toLowerCase (trim c) = toLowerCase (trim u) \/ In (toLowerCase (trim u)) vs.
Proof.
  unfold exactOrVariant. rewrite orb_true_iff, str_eqb_eq, includes_In. tauto.
Qed.

(** The test accepts nothing that the normalizing matcher would reject. *)
Lemma exactOrVariant_sound (u c : str) (vs : list str) :
  exactOrVariant u c vs = true ->
  toLowerCase (trim u) = toLowerCase (trim c)
  \/ exists v, In v vs /\ toLowerCase (trim u) = toLowerCase (trim v).
Proof.
  rewrite exactOrVariant_spec. intros [H|H]; [left; symmetry; exact H|].
  right. exists (toLowerCase (trim u)). split; [exact H|].
  symmetry. apply normal_idem.
Qed.

(** C5 at its failing input: the variation is stored as " Circular " and the
    input "circular" has the same normal form, yet the exact/variation test
    rejects it; [checkAnswer] goes on to the fuzzy tier, which accepts at the
    variation (distance 0). *)
Theorem exactOrVariant_misses_stored_variation :
  answer_variations capitalRow = Some [lit " Circular "]
  /\ toLowerCase (trim (lit "circular")) = toLowerCase (trim (lit " Circular "))
  /\ exactOrVariant (lit "circular") (correct_answer capitalRow)
       [lit " Circular "] = false
  /\ checkAnswer (world [capitalRow] (Body [])) 1 (lit "circular")
     = ([Query 1; FuzzyMatch (lit "circular") (lit "round");
         FuzzyMatch (lit "circular") (lit " Circular ")], Returned true).
Proof. repeat split; vm_compute; reflexivity. Qed.
(** ** The normal form *)

Lemma lowerChar_keeps_space (c : ascii) : isWhiteSpace c = true -> lowerChar c = c.
Proof. each_char c; discriminate. Qed.

Lemma forallb_not_upper (s : str) :
  forallb (fun c => negb (isUpper c)) (toLowerCase s) = true.
Proof.
  induction s as [|c s IH]; simpl; [reflexivity|].
  rewrite lowerChar_not_upper, IH. reflexivity.
Qed.

Lemma toLowerCase_keeps_spaces (s : str) :
  filter isWhiteSpace (toLowerCase s) = filter isWhiteSpace s.
Proof.
  induction s as [|c t IH]; simpl; [reflexivity|].
  rewrite lowerChar_space. destruct (isWhiteSpace c) eqn:Hc; [|exact IH].
  rewrite (lowerChar_keeps_space c Hc), IH. reflexivity.
Qed.

(** C7, as the code has it: the normal form [x.trim().toLowerCase()] is a
    total function of the string, the empty string included, whose normal
    form is empty.  It drops the white space before and after a middle part
    that neither starts nor ends with white space, and maps that middle part
    character by character to lower case: no upper-case letter is left, the
    length of the middle part is kept, every white-space character inside it
    is kept as it is, and the normal form of a normal form is itself.  Runs
    of internal white space are not collapsed. *)
Theorem normal_form_spec :
  toLowerCase (trim []) = []
  /\ forall s : str, exists l m r,
       s = l ++ m ++ r
       /\ forallb isWhiteSpace l = true /\ forallb isWhiteSpace r = true
       /\ notSpace (headChar m) /\ notSpace (lastChar m)
       /\ toLowerCase (trim s) = map lowerChar m
       /\ length (toLowerCase (trim s)) = length m
       /\ filter isWhiteSpace (toLowerCase (trim s)) = filter isWhiteSpace m
       /\ forallb (fun c => negb (isUpper c)) (toLowerCase (trim s)) = true
       /\ toLowerCase (trim (toLowerCase (trim s))) = toLowerCase (trim s).
Proof.
  split; [reflexivity|]. intros s.
  destruct (trim_split s) as (l & r & E & Hl & Hr).
  exists l, (trim s), r.
  repeat (split; [first [ exact E | exact Hl | exact Hr | apply trim_headChar
                        | apply trim_lastChar | reflexivity
                        | apply toLowerCase_length ]|]).
  split; [apply toLowerCase_keeps_spaces|].
  split; [apply forallb_not_upper | apply normal_idem].
Qed.

(** C7 as stated fails: two internal spaces stay two. *)
Lemma internal_spaces_not_collapsed :
  toLowerCase (trim (lit "Tic  Tac")) = lit "tic  tac"
  /\ toLowerCase (trim (lit "Tic  Tac")) <> toLowerCase (trim (lit "Tic Tac")).
Proof. split; [reflexivity | discriminate]. Qed.

(** ** The synonym matcher *)

(** C8, as the code has it: the synonym matcher keeps no normalized copy of
    the words of the lookup; when the lookup succeeds it returns [true]
    exactly when some returned word, as the service spelled it, is equal to
    the normal form of the input. *)
Theorem isSynonymMatch_raw_membership (w : World) (u c : str) (entries : list Entry) :
  datamuse w c = Body entries ->
  exists b,
    isSynonymMatch w u c = ([SynonymMatch u c; Fetch c], Returned b)
    /\ (b = true <-> exists e, In e entries /\ word e = toLowerCase (trim u)).
Proof.
  intros E. exists (includes (map word entries) (toLowerCase (trim u))). split.
  - rewrite isSynonymMatch_run. unfold lookup. rewrite E. reflexivity.
  - rewrite includes_In, in_map_iff.
    split; intros (e & H1 & H2); exists e; split; assumption.
Qed.

Lemma isSynonymMatch_raw_membership_witness :
  exists b,
    isSynonymMatch (sampleWorld (Body [entry "circular"; entry "Globular"]))
      (lit " Circular") (lit "round")
    = ([SynonymMatch (lit " Circular") (lit "round"); Fetch (lit "round")], Returned b)
    /\ (b = true <->
        exists e, In e [entry "circular"; entry "Globular"]
                  /\ word e = toLowerCase (trim (lit " Circular"))).
Proof.
  apply (isSynonymMatch_raw_membership
           (sampleWorld (Body [entry "circular"; entry "Globular"]))
           (lit " Circular") (lit "round") [entry "circular"; entry "Globular"]).
  reflexivity.
Defined.

(** C8 as stated fails: the service returns "Circular", whose normal form is
    that of the input "circular", and the matcher returns [false]. *)
Lemma capitalized_synonym_rejected :
  datamuse (sampleWorld (Body [entry "Circular"])) (lit "round")
  = Body [entry "Circular"]
  /\ toLowerCase (trim (word (entry "Circular"))) = toLowerCase (trim (lit "circular"))
  /\ outcome (isSynonymMatch (sampleWorld (Body [entry "Circular"]))
                (lit "circular") (lit "round")) = Returned false.
Proof. repeat split; vm_compute; reflexivity. Qed.

(** * Further properties of the service *)

(** ** The outcome of a run *)

Lemma existsb_same (p p' : str -> bool) (vs : list str) :
  (forall v, p v = p' v) -> existsb p vs = existsb p' vs.
Proof.
  intros H. induction vs as [|v vs IH]; simpl; [reflexivity|].
  rewrite H, IH. reflexivity.
Qed.


(** On a row whose variations are an array, the outcome is [true] when a tier
    before the synonym tier accepts, and the outcome of the lookup
    otherwise. *)
Lemma checkAnswer_outcome (w : World) (q : Z) (u : str) (row : AnswerRow)
    (rest : list AnswerRow) (vs : list str) :
  answers w q = rows (row :: rest) ->
  answer_variations row = Some vs ->
  outcome (checkAnswer w q u) =
  if acceptedEarly u (correct_answer row) vs then Returned true
  else lookup w u (correct_answer row).
Proof.
  intros E V. rewrite (checkAnswer_run_array w q u row rest vs E V). cbv zeta.
  unfold acceptedEarly.
  destruct (exactOrVariant _ _ _); [reflexivity|].
  destruct (isFuzzyMatch u (correct_answer row)); [reflexivity|].
  destruct (existsb _ _); reflexivity.
Qed.

(** On a row whose variations are [null], only the exact comparison with the
    canonical answer can accept. *)
Lemma checkAnswer_outcome_null (w : World) (q : Z) (u : str) (row : AnswerRow)
    (rest : list AnswerRow) :
  answers w q = rows (row :: rest) ->
  answer_variations row = None ->
  checkAnswer w q u =
  ([Query q],
   if str_eqb (toLowerCase (trim (correct_answer row))) (toLowerCase (trim u))
   then Returned true else Threw TypeError).
Proof.
  intros E V. rewrite (checkAnswer_run w q u row rest E), V. cbv zeta.
  destruct (str_eqb _ _); reflexivity.
Qed.

(** The three shapes of a store answer that has no first row. *)
Lemma checkAnswer_no_row (w : World) (q : Z) (u : str) :
  (forall row rest, answers w q <> rows (row :: rest)) ->
  checkAnswer w q u =
  ([Query q],
   match error (answers w q), data (answers w q) with
   | None, None => Threw TypeError
   | _, _ => Returned false
   end).
Proof.
  intros N. unfold checkAnswer.
  destruct (answers w q) as [[[|row rest]|] [e|]] eqn:E; try reflexivity.
  exfalso. exact (N row rest eq_refl).
Qed.

Lemma store_cases (r : QueryResult) :
  (exists row rest, r = rows (row :: rest))
  \/ (forall row rest, r <> rows (row :: rest)).
Proof.
  destruct r as [[[|row rest]|] [e|]];
    try (right; intros row' rest'; discriminate).
  left. exists row, rest. reflexivity.
Qed.

(** ** The normal form of the input *)

Lemma isFuzzyMatch_input (u u' s : str) :
  toLowerCase (trim u) = toLowerCase (trim u') ->
  isFuzzyMatch u s = isFuzzyMatch u' s.
Proof. unfold isFuzzyMatch. intros ->. reflexivity. Qed.

Lemma acceptedEarly_input (u u' c : str) (vs : list str) :
  toLowerCase (trim u) = toLowerCase (trim u') ->
  acceptedEarly u c vs = acceptedEarly u' c vs.
Proof.
  intros E. unfold acceptedEarly, exactOrVariant. rewrite E.
  rewrite (isFuzzyMatch_input u u' _ E).
  rewrite (existsb_same (isFuzzyMatch u) (isFuzzyMatch u'));
    [reflexivity | intros v; apply isFuzzyMatch_input, E].
Qed.

(** X1: the outcome of [checkAnswer] depends on the input only through
    [userInput.trim().toLowerCase()]: two inputs with the same normal form,
    for the same question in the same world, are both accepted, both rejected
    or both fail alike. *)
Theorem checkAnswer_input_normal_form (w : World) (q : Z) (u u' : str) :
  toLowerCase (trim u) = toLowerCase (trim u') ->
  outcome (checkAnswer w q u) = outcome (checkAnswer w q u').
Proof.
  intros E. destruct (store_cases (answers w q)) as [(row & rest & R)|N].
  - destruct (answer_variations row) as [vs|] eqn:V.
    + rewrite !(checkAnswer_outcome w q _ row rest vs R V).
      rewrite (acceptedEarly_input u u' _ vs E). unfold lookup. rewrite E.
      reflexivity.
    + rewrite !(checkAnswer_outcome_null w q _ row rest R V), E. reflexivity.
  - rewrite !checkAnswer_no_row by exact N. reflexivity.
Qed.

Lemma checkAnswer_input_normal_form_witness :
  outcome (checkAnswer (sampleWorld (Body [entry "globular"])) 1 (lit "  GLOBULAR "))
  = outcome (checkAnswer (sampleWorld (Body [entry "globular"])) 1 (lit "globular")).
Proof. apply checkAnswer_input_normal_form. reflexivity. Defined.

(** ** When a run fails, when it accepts *)


Lemma isFuzzyMatch_le (u s : str) :
  isFuzzyMatch u s = true <->
  levenshtein (toLowerCase (trim u)) (toLowerCase (trim s)) <= 2.
Proof. unfold isFuzzyMatch. cbv zeta. apply Nat.leb_le. Qed.

Lemma isFuzzyMatch_same (u s : str) :
  toLowerCase (trim u) = toLowerCase (trim s) -> isFuzzyMatch u s = true.
Proof.
  intros E. apply isFuzzyMatch_le. rewrite E.
  rewrite (proj2 (levenshtein_eq_0 _ _) eq_refl). lia.
Qed.

(** Whatever step 2 accepts on an array of variations, the fuzzy tier accepts
    as well. *)
Lemma acceptedEarly_fuzzy (u c : str) (vs : list str) :
  acceptedEarly u c vs = isFuzzyMatch u c || existsb (isFuzzyMatch u) vs.
Proof.
  unfold acceptedEarly.
  destruct (exactOrVariant u c vs) eqn:X; [|reflexivity].
  rewrite <- orb_assoc. simpl. symmetry.
  apply exactOrVariant_sound in X as [E|(v & Hv & E)]; apply orb_true_iff.
  - left. apply isFuzzyMatch_same, E.
  - right. apply existsb_exists. exists v. split; [exact Hv|].
    apply isFuzzyMatch_same, E.
Qed.




(** ** The calls of a run *)

Lemma fuzzy_calls_only (u : str) (vs : list str) :
  existsb isQuery (map (FuzzyMatch u) vs) = false
  /\ filter isFetch (map (FuzzyMatch u) vs) = [].
Proof. induction vs as [|v vs [IH1 IH2]]; simpl; auto. Qed.

(** X5: every run of [checkAnswer] starts with the store query for its
    question and makes no other store query; it makes at most one HTTP
    request to the synonym service, and makes one only when the question has
    a first row, with an array of variations, that no earlier tier accepts,
    for the canonical answer of that row as it is stored. *)
Theorem checkAnswer_calls_discipline (w : World) (q : Z) (u : str) :
  exists t,
    calls (checkAnswer w q u) = Query q :: t
    /\ existsb isQuery t = false
    /\ (filter isFetch t = []
        \/ exists row rest vs,
             answers w q = rows (row :: rest)
             /\ answer_variations row = Some vs
             /\ acceptedEarly u (correct_answer row) vs = false
             /\ filter isFetch t = [Fetch (correct_answer row)]).
Proof.
  destruct (store_cases (answers w q)) as [(row & rest & R)|N].
  - destruct (answer_variations row) as [vs|] eqn:V.
    + rewrite (checkAnswer_run_array w q u row rest vs R V). cbv zeta.
      destruct (exactOrVariant u (correct_answer row) vs) eqn:X.
      { exists []. simpl. auto. }
      destruct (isFuzzyMatch u (correct_answer row)) eqn:F.
      { exists [FuzzyMatch u (correct_answer row)]. simpl. auto. }
      destruct (existsb (isFuzzyMatch u) vs) eqn:A.
      * destruct (fuzzy_calls_only u (visited (isFuzzyMatch u) vs)) as [H1 H2].
        eexists. split; [reflexivity|]. simpl. auto.
      * destruct (fuzzy_calls_only u vs) as [H1 H2].
        eexists. split; [reflexivity|]. simpl.
        rewrite existsb_app, filter_app, H1, H2. simpl. split; [reflexivity|].
        right. exists row, rest, vs. split; [exact R|]. split; [exact V|].
        split; [|reflexivity].
        unfold acceptedEarly. rewrite X, F, A. reflexivity.
    + rewrite (checkAnswer_outcome_null w q u row rest R V).
      exists []. simpl. auto.
  - rewrite checkAnswer_no_row by exact N. exists []. simpl. auto.
Qed.

(** ** The stored variations as a set *)







(** ** The fuzzy match *)

(** A cell of the matrix is at least the difference of its indices and at
    most the larger of them. *)
Lemma d_bounds (a b : str) (i j : nat) :
  i <= d a b i j + j /\ j <= d a b i j + i /\ d a b i j <= Nat.max i j.
Proof.
  revert j. induction i as [|i IHi]; intros j.
  - rewrite d_zero_l. lia.
  - induction j as [|j IHj].
    + rewrite d_zero_r. lia.
    + rewrite d_step. pose proof (IHi j). pose proof (IHi (S j)).
      destruct (Ascii.eqb (charAt a i) (charAt b j)); lia.
Qed.

Lemma levenshtein_bounds (a b : str) :
  length a <= levenshtein a b + length b
  /\ length b <= levenshtein a b + length a
  /\ levenshtein a b <= Nat.max (length a) (length b).
Proof. apply d_bounds. Qed.

(** X8: [isFuzzyMatch] reads each argument through its normal form only, and,
    with the distance of the design, does not depend on the order of its two
    arguments. *)
Theorem isFuzzyMatch_normal_symmetric (a b : str) :
  isFuzzyMatch a b = isFuzzyMatch (toLowerCase (trim a)) (toLowerCase (trim b))
  /\ isFuzzyMatch a b = isFuzzyMatch b a.
Proof.
  unfold isFuzzyMatch. cbv zeta. split.
  - rewrite !normal_idem. reflexivity.
  - rewrite levenshtein_sym. reflexivity.
Qed.

(** X9: with the distance of the design, [isFuzzyMatch] accepts only strings
    whose normal forms [x.trim().toLowerCase()] differ in length by at most
    2: an input whose normal form is more than two characters longer or
    shorter than that of the stored string is never a fuzzy match. *)
Theorem isFuzzyMatch_length_gap (u s : str) :
  isFuzzyMatch u s = true ->
  length (toLowerCase (trim u)) <= length (toLowerCase (trim s)) + 2
  /\ length (toLowerCase (trim s)) <= length (toLowerCase (trim u)) + 2.
Proof.
  intros H. apply isFuzzyMatch_le in H.
  pose proof (levenshtein_bounds (toLowerCase (trim u)) (toLowerCase (trim s))) as B.
  lia.
Qed.

Lemma isFuzzyMatch_length_gap_witness :
  length (toLowerCase (trim (lit " Rund "))) <= length (toLowerCase (trim (lit "round"))) + 2
  /\ length (toLowerCase (trim (lit "round"))) <= length (toLowerCase (trim (lit " Rund "))) + 2.
Proof. apply isFuzzyMatch_length_gap. reflexivity. Defined.

(** X10: with the distance of the design, the threshold 2 is absolute: on a
    first row with an array of variations, when the normal forms of the input
    and of the canonical answer both have at most two characters,
    [isFuzzyMatch] accepts whatever the characters are, and [checkAnswer]
    accepts the input without any call of the synonym tier. *)
Theorem checkAnswer_two_characters (w : World) (q : Z) (u : str)
    (row : AnswerRow) (rest : list AnswerRow) (vs : list str) :
  answers w q = rows (row :: rest) ->
  answer_variations row = Some vs ->
  length (toLowerCase (trim u)) <= 2 ->
  length (toLowerCase (trim (correct_answer row))) <= 2 ->
  isFuzzyMatch u (correct_answer row) = true
  /\ existsb isLookup (calls (checkAnswer w q u)) = false
  /\ outcome (checkAnswer w q u) = Returned true.
Proof.
  intros R V Hu Hc.
  assert (F : isFuzzyMatch u (correct_answer row) = true).
  { apply isFuzzyMatch_le.
    pose proof (levenshtein_bounds (toLowerCase (trim u))
                  (toLowerCase (trim (correct_answer row)))) as B.
    lia. }
  split; [exact F|]. apply (early_run w q u row rest vs R V).
  rewrite acceptedEarly_fuzzy, F. reflexivity.
Qed.

Lemma checkAnswer_two_characters_witness :
  isFuzzyMatch (lit "pi") (lit "ox") = true
  /\ existsb isLookup (calls (checkAnswer (world [oxRow] (Body [])) 1 (lit "pi")))
     = false
  /\ outcome (checkAnswer (world [oxRow] (Body [])) 1 (lit "pi")) = Returned true.
Proof.
  apply (checkAnswer_two_characters (world [oxRow] (Body [])) 1 (lit "pi") oxRow [] []);
    [reflexivity | reflexivity | simpl; lia | simpl; lia].
Defined.

(** ** A row without variations *)

(** X11: on a first row whose [answer_variations] is [null], [checkAnswer]
    accepts an input whose normal form is that of the canonical answer, after
    the store query alone; for every other input it throws a [TypeError] at
    [answerVariations.includes], before any fuzzy match or lookup: such a row
    never yields [false]. *)
Theorem checkAnswer_null_variations (w : World) (q : Z) (u : str)
    (row : AnswerRow) (rest : list AnswerRow) :
  answers w q = rows (row :: rest) ->
  answer_variations row = None ->
  (toLowerCase (trim (correct_answer row)) = toLowerCase (trim u) ->
   checkAnswer w q u = ([Query q], Returned true))
  /\ (toLowerCase (trim (correct_answer row)) <> toLowerCase (trim u) ->
      checkAnswer w q u = ([Query q], Threw TypeError))
  /\ outcome (checkAnswer w q u) <> Returned false.
Proof.
  intros R V. split; [exact (canonical_run w q u row rest R)|].
  split; [exact (null_run w q u row rest R V)|].
  rewrite (checkAnswer_outcome_null w q u row rest R V). unfold outcome. simpl.
  destruct (str_eqb _ _); discriminate.
Qed.

Lemma checkAnswer_null_variations_witness :
  checkAnswer (world [nullRow] (Body [])) 1 (lit "Round ") = ([Query 1], Returned true)
  /\ checkAnswer (world [nullRow] (Body [])) 1 (lit "rund") = ([Query 1], Threw TypeError).
Proof.
  destruct (checkAnswer_null_variations (world [nullRow] (Body [])) 1 (lit "Round ")
              nullRow [] eq_refl eq_refl) as (H & _ & _).
  destruct (checkAnswer_null_variations (world [nullRow] (Body [])) 1 (lit "rund")
              nullRow [] eq_refl eq_refl) as (_ & H' & _).
  split; [apply H; reflexivity | apply H'; discriminate].
Defined.
